(** * The tunnel allocator of [tun/src/ffi.c]

    A shallow embedding of the two C functions of [ffi.c]:
    [strscpy_pad], the fixed-name copier, and [tun_alloc], the sequence
    of kernel calls that creates and configures the tunnel interface.

    - C [int] is a [Z] wrapped to 32 bits after every arithmetic step.
    - Byte memory is a total map from addresses to bytes, pointers are
      addresses, and the null pointer is address [0].
    - The kernel is a record of answers ([os]); every system call of
      [tun_alloc] is appended to a log, and the table of open descriptors
      is part of the state. *)

From Stdlib Require Import ZArith List Bool String Lia.
Import ListNotations.
Local Open Scope Z_scope.

(** ** Machine integers *)

Module Int.

Definition modulus : Z := 2 ^ 32.
Definition half_modulus : Z := 2 ^ 31.
Definition max_signed : Z := half_modulus - 1.
Definition min_signed : Z := - half_modulus.

(** The value an [int] holds after an arithmetic result [z]. *)
Definition wrap (z : Z) : Z := (z + half_modulus) mod modulus - half_modulus.

Definition in_range (z : Z) : Prop := min_signed <= z <= max_signed.

End Int.

(** ** Byte memory *)

Definition mem : Type := Z -> Z.

Definition load (m : mem) (p : Z) : Z := m p.

Definition store (m : mem) (p : Z) (v : Z) : mem :=
  fun a => if a =? p then v else m a.

(** The [n] consecutive addresses starting at [p]. *)
Fixpoint addrs (p : Z) (n : nat) : list Z :=
  match n with
  | O => []
  | S n' => p :: addrs (p + 1) n'
  end.

Definition load_bytes (m : mem) (p : Z) (n : nat) : list Z :=
  map (load m) (addrs p n).

Fixpoint store_bytes (m : mem) (p : Z) (l : list Z) : mem :=
  match l with
  | [] => m
  | b :: l' => store_bytes (store m p b) (p + 1) l'
  end.

(** [memset(p, c, n)] *)
Definition memset (m : mem) (p : Z) (c : Z) (n : nat) : mem :=
  store_bytes m p (repeat c n).

(** ** [strscpy_pad] *)

Module Strscpy.

(** The parameters and locals of [strscpy_pad], the memory it works on,
    and the addresses it has stored to, oldest first. *)
Record locals : Type := mkLocals {
  l_mem : mem;
  dst : Z;
  src : Z;
  size : Z;
  stores : list Z
}.

(** [*dst != 0 && size != 0] *)
Definition copy_guard (s : locals) : bool :=
  negb (load (l_mem s) (dst s) =? 0) && negb (size s =? 0).

(** [*dst = *src; src++; dst++; size--;] *)
Definition copy_body (s : locals) : locals :=
  {| l_mem := store (l_mem s) (dst s) (load (l_mem s) (src s));
     dst := dst s + 1;
     src := src s + 1;
     size := Int.wrap (size s - 1);
     stores := stores s ++ [dst s] |}.

(** The first [while] loop; [None] when the fuel runs out with the guard
    still true. *)
Fixpoint copy_loop (fuel : nat) (s : locals) : option locals :=
  if copy_guard s then
    match fuel with
    | O => None
    | S fuel' => copy_loop fuel' (copy_body s)
    end
  else Some s.

(** [size != 0] *)
Definition pad_guard (s : locals) : bool := negb (size s =? 0).

(** [dst = 0; dst++; size--;] : the assignment is to the pointer. *)
Definition pad_body (s : locals) : locals :=
  {| l_mem := l_mem s;
     dst := 0 + 1;
     src := src s;
     size := Int.wrap (size s - 1);
     stores := stores s |}.

Fixpoint pad_loop (fuel : nat) (s : locals) : option locals :=
  if pad_guard s then
    match fuel with
    | O => None
    | S fuel' => pad_loop fuel' (pad_body s)
    end
  else Some s.

(** [dst = 0;] *)
Definition final_assign (s : locals) : locals :=
  {| l_mem := l_mem s; dst := 0; src := src s; size := size s;
     stores := stores s |}.

(** Iterations after which an [int] counted down from [n] has reached 0. *)
Definition countdown (n : Z) : nat := Z.to_nat (n mod Int.modulus).

(** [int strscpy_pad(char *dst, const char *src, int size)]: the
    returned [int] and the locals at the [return]. *)
Definition strscpy_pad (m : mem) (d s : Z) (n : Z) : option (Z * locals) :=
  let written := n in
  match copy_loop (countdown n)
          {| l_mem := m; dst := d; src := s; size := n; stores := [] |} with
  | None => None
  | Some s1 =>
      let written := Int.wrap (written - size s1) in
      match pad_loop (countdown (size s1)) s1 with
      | None => None
      | Some s2 => Some (written, final_assign s2)
      end
  end.

End Strscpy.

(** ** Constants and structures of the system headers *)

(** Modelled from the spec: the headers [linux/if.h], [linux/if_tun.h],
    [net/route.h], [fcntl.h] and [sys/socket.h] are not part of the
    sources.  The spec gives the name array its 16-byte capacity and
    names the bits; the numbers are the ones the Linux headers give. *)
Definition IFNAMSIZ : Z := 16.
Definition IFF_TUN : Z := 0x0001.
Definition IFF_TAP : Z := 0x0002.
Definition IFF_NO_PI : Z := 0x1000.
Definition IFF_UP : Z := 0x1.
Definition IFF_RUNNING : Z := 0x40.
Definition RTF_UP : Z := 0x0001.
Definition RTF_STATIC : Z := 0x0400.
Definition AF_INET : Z := 2.
Definition SOCK_DGRAM : Z := 2.
Definition O_RDWR : Z := 2.

(** The request codes handed to [ioctl]. *)
Inductive request : Type :=
| TUNSETIFF
| SIOCSIFADDR
| SIOCSIFDSTADDR
| SIOCGIFFLAGS
| SIOCSIFFLAGS
| SIOCADDRT.

Definition request_eqb (a b : request) : bool :=
  match a, b with
  | TUNSETIFF, TUNSETIFF
  | SIOCSIFADDR, SIOCSIFADDR
  | SIOCSIFDSTADDR, SIOCSIFDSTADDR
  | SIOCGIFFLAGS, SIOCGIFFLAGS
  | SIOCSIFFLAGS, SIOCSIFFLAGS
  | SIOCADDRT, SIOCADDRT => true
  | _, _ => false
  end.

Record sockaddr_in : Type := mkSockaddrIn {
  sin_family : Z;
  sin_port : Z;
  sin_addr : Z
}.

(** The members of the union inside [struct ifreq] that [tun_alloc]
    uses: [ifr_flags], [ifr_addr] and [ifr_dstaddr]. *)
Inductive ifr_ifru : Type :=
| Ifru_flags (f : Z)
| Ifru_addr (a : sockaddr_in)
| Ifru_dstaddr (a : sockaddr_in).

(** Reading the member [ifr_flags]: all members start at the first byte of
    the union, and the first 16 bits of a socket address are its family. *)
Definition ifr_flags (u : ifr_ifru) : Z :=
  match u with
  | Ifru_flags f => f
  | Ifru_addr a | Ifru_dstaddr a => sin_family a
  end.

(** A [struct ifreq] as the kernel sees it: the bytes of the name array
    and the union. *)
Record ifreq : Type := mkIfreq {
  ifr_name : list Z;
  ifr_union : ifr_ifru
}.

Record rtentry : Type := mkRtentry {
  rt_dst : sockaddr_in;
  rt_genmask : sockaddr_in;
  rt_flags : Z;
  rt_metric : Z;
  rt_dev : Z
}.

Inductive ioctl_arg : Type :=
| Arg_ifreq (i : ifreq)
| Arg_rtentry (r : rtentry).

(** ** The process and the kernel *)

(** What the process asks of the system, in program order. *)
Inductive event : Type :=
| EvOpen (path : string) (flags : Z) (ret : Z)
| EvIoctl (fd : Z) (req : request) (arg : ioctl_arg) (ret : Z)
| EvSocket (domain type protocol : Z) (ret : Z)
| EvClose (fd : Z)
| EvPrintf (format : string).

(** The answers of the system: the value each call returns, what an
    [ioctl] leaves in the [struct ifreq] it was given, and the parse of
    [inet_addr]. *)
Record os : Type := mkOs {
  os_open : string -> Z -> Z;
  os_socket : Z -> Z -> Z -> Z;
  os_ioctl : request -> Z;
  os_ifreq : request -> ifreq -> ifreq;
  os_inet_addr : string -> Z
}.

(** Byte memory, the descriptors that are open, and the log of calls. *)
Record world : Type := mkWorld {
  w_mem : mem;
  w_fds : list Z;
  w_log : list event
}.

(** Computations on the world that may fail to return. *)
Definition M (A : Type) : Type := world -> option (A * world).

Definition ret {A : Type} (a : A) : M A := fun w => Some (a, w).

Definition bind {A B : Type} (c : M A) (f : A -> M B) : M B :=
  fun w => match c w with
           | Some (a, w') => f a w'
           | None => None
           end.

Notation "x <- c ;; f" := (bind c (fun x => f))
  (at level 61, c at next level, right associativity).
Notation "' pat <- c ;; f" := (bind c (fun x => match x with pat => f end))
  (at level 61, pat pattern, c at next level, right associativity).
Notation "c ;;; f" := (bind c (fun _ => f))
  (at level 61, right associativity).

Definition log_event (e : event) : M unit :=
  fun w => Some (tt, {| w_mem := w_mem w; w_fds := w_fds w;
                        w_log := w_log w ++ [e] |}).

(** The descriptor table after [close(fd)]. *)
Fixpoint release (fd : Z) (fds : list Z) : list Z :=
  match fds with
  | [] => []
  | x :: fds' => if x =? fd then fds' else x :: release fd fds'
  end.

(** The descriptor table after a call that returned [r]: a non-negative
    result is a new open descriptor. *)
Definition acquire (r : Z) (fds : list Z) : list Z :=
  if r <? 0 then fds else r :: fds.

(** Width of a name array as a [nat]. *)
Definition name_len : nat := Z.to_nat IFNAMSIZ.

(** A byte list cut or zero-filled to exactly [n] bytes. *)
Definition fit (n : nat) (l : list Z) : list Z := firstn n (l ++ repeat 0 n).

(** The bytes of a C string held in [l]: through the first NUL, or all of
    [l] when it has none. *)
Fixpoint c_str (l : list Z) : list Z :=
  match l with
  | [] => []
  | b :: l' => if b =? 0 then [b] else b :: c_str l'
  end.

(** ** [tun_alloc] *)

Definition tun_path : string := "/dev/net/tun".

Section TunAlloc.

(** The system the call runs against, and the address of the local
    [ifr]; the name array is its first member. *)
Variable k : os.
Variable p_ifr : Z.

(** [open(path, flags)] *)
Definition sys_open (path : string) (flags : Z) : M Z :=
  fun w =>
    let r := os_open k path flags in
    Some (r, {| w_mem := w_mem w; w_fds := acquire r (w_fds w);
                w_log := w_log w ++ [EvOpen path flags r] |}).

(** [socket(domain, type, protocol)] *)
Definition sys_socket (domain type protocol : Z) : M Z :=
  fun w =>
    let r := os_socket k domain type protocol in
    Some (r, {| w_mem := w_mem w; w_fds := acquire r (w_fds w);
                w_log := w_log w ++ [EvSocket domain type protocol r] |}).

(** [close(fd)] *)
Definition sys_close (fd : Z) : M unit :=
  fun w =>
    Some (tt, {| w_mem := w_mem w; w_fds := release fd (w_fds w);
                 w_log := w_log w ++ [EvClose fd] |}).

(** [ioctl(fd, req, &ifr)]: the kernel is handed the name array and the
    union [u], and leaves its answer in both. *)
Definition ioctl_ifreq (fd : Z) (req : request) (u : ifr_ifru)
  : M (Z * ifr_ifru) :=
  fun w =>
    let arg := {| ifr_name := load_bytes (w_mem w) p_ifr name_len;
                  ifr_union := u |} in
    let out := os_ifreq k req arg in
    let r := os_ioctl k req in
    Some ((r, ifr_union out),
          {| w_mem := store_bytes (w_mem w) p_ifr (fit name_len (ifr_name out));
             w_fds := w_fds w;
             w_log := w_log w ++ [EvIoctl fd req (Arg_ifreq arg) r] |}).

(** [ioctl(fd, req, &rt)] *)
Definition ioctl_rtentry (fd : Z) (req : request) (rt : rtentry) : M Z :=
  fun w =>
    let r := os_ioctl k req in
    Some (r, {| w_mem := w_mem w; w_fds := w_fds w;
                w_log := w_log w ++ [EvIoctl fd req (Arg_rtentry rt) r] |}).

(** [printf(format, strerror(errno))] *)
Definition printf (format : string) : M unit := log_event (EvPrintf format).

(** [*p] *)
Definition deref (p : Z) : M Z := fun w => Some (load (w_mem w) p, w).

(** [memset(&ifr, 0, sizeof(ifr))], the part that lies in byte memory:
    the name array.  The union is zeroed where it is bound. *)
Definition memset_ifr : M unit :=
  fun w =>
    Some (tt, {| w_mem := memset (w_mem w) p_ifr 0 name_len;
                 w_fds := w_fds w; w_log := w_log w |}).

(** The call [strscpy_pad(d, s, n)] on the memory of the process. *)
Definition call_strscpy_pad (d s n : Z) : M Z :=
  fun w =>
    match Strscpy.strscpy_pad (w_mem w) d s n with
    | None => None
    | Some (r, l) =>
        Some (r, {| w_mem := Strscpy.l_mem l; w_fds := w_fds w;
                    w_log := w_log w |})
    end.

(** [strcpy(d, ifr.ifr_name)]: the string starts in the name array and
    the bytes through its first NUL are copied to [d]. *)
Definition strcpy_ifr_name (d : Z) : M unit :=
  fun w =>
    Some (tt, {| w_mem := store_bytes (w_mem w) d
                            (c_str (load_bytes (w_mem w) p_ifr name_len));
                 w_fds := w_fds w; w_log := w_log w |}).

Definition inet_addr (text : string) : Z := os_inet_addr k text.

(** [int tun_alloc(char *dev, const char *self_ip, const char *peer_ip)] *)
Definition tun_alloc (dev : Z) (self_ip peer_ip : string) : M Z :=
  fd <- sys_open tun_path O_RDWR ;;
  if fd <? 0 then ret (-1) else
  memset_ifr ;;;
  let u := Ifru_flags 0 in
  let u := Ifru_flags IFF_TUN in
  c <- deref dev ;;
  _ <- (if negb (c =? 0) then call_strscpy_pad p_ifr dev IFNAMSIZ
        else ret 0) ;;
  '(err, u) <- ioctl_ifreq fd TUNSETIFF u ;;
  if err <? 0 then
    printf "ioctl failed: %s\n" ;;;
    sys_close fd ;;;
    ret err
  else
  strcpy_ifr_name dev ;;;
  sock <- sys_socket AF_INET SOCK_DGRAM 0 ;;
  if sock <? 0 then
    printf "opening socket failed: %s\n" ;;;
    sys_close fd ;;;
    ret sock
  else
  let sai := {| sin_family := AF_INET; sin_port := 0;
                sin_addr := inet_addr self_ip |} in
  let u := Ifru_addr sai in
  '(err, u) <- ioctl_ifreq sock SIOCSIFADDR u ;;
  if err <? 0 then
    printf "setting ip address failed: %s\n" ;;;
    sys_close fd ;;;
    sys_close sock ;;;
    ret err
  else
  let sai := {| sin_family := sin_family sai; sin_port := sin_port sai;
                sin_addr := inet_addr peer_ip |} in
  let u := Ifru_dstaddr sai in
  '(err, u) <- ioctl_ifreq sock SIOCSIFDSTADDR u ;;
  if err <? 0 then
    printf "setting peer address failed: %s\n" ;;;
    sys_close fd ;;;
    sys_close sock ;;;
    ret err
  else
  '(err, u) <- ioctl_ifreq sock SIOCGIFFLAGS u ;;
  if err <? 0 then
    printf "getting flags failed: %s\n" ;;;
    sys_close fd ;;;
    sys_close sock ;;;
    ret err
  else
  let u := Ifru_flags (Z.lor (ifr_flags u) (Z.lor IFF_UP IFF_RUNNING)) in
  '(err, u) <- ioctl_ifreq sock SIOCSIFFLAGS u ;;
  if err <? 0 then
    printf "setting flags failed: %s\n" ;;;
    sys_close fd ;;;
    sys_close sock ;;;
    ret err
  else
  let rt := {| rt_dst := {| sin_family := AF_INET; sin_port := 0;
                            sin_addr := inet_addr peer_ip |};
               rt_genmask := {| sin_family := AF_INET; sin_port := 0;
                                sin_addr := inet_addr "255.255.255.255" |};
               rt_flags := Z.lor RTF_UP RTF_STATIC;
               rt_metric := 0;
               rt_dev := dev |} in
  err <- ioctl_rtentry sock SIOCADDRT rt ;;
  if err <? 0 then
    printf "adding route failed: %s\n" ;;;
    sys_close sock ;;;
    sys_close fd ;;;
    ret err
  else
  sys_close sock ;;;
  ret fd.

End TunAlloc.

(** The kernel operations of the configuration sequence. *)
Inductive op : Type :=
| OpOpen
| OpIoctl (req : request)
| OpSocket.

(** The fixed order of the sequence. *)
Definition steps : list op :=
  [OpOpen; OpIoctl TUNSETIFF; OpSocket; OpIoctl SIOCSIFADDR;
   OpIoctl SIOCSIFDSTADDR; OpIoctl SIOCGIFFLAGS; OpIoctl SIOCSIFFLAGS;
   OpIoctl SIOCADDRT].

(** The operations a log shows, in order. *)
Fixpoint ops_of (log : list event) : list op :=
  match log with
  | [] => []
  | EvOpen _ _ _ :: log' => OpOpen :: ops_of log'
  | EvIoctl _ req _ _ :: log' => OpIoctl req :: ops_of log'
  | EvSocket _ _ _ _ :: log' => OpSocket :: ops_of log'
  | _ :: log' => ops_of log'
  end.

(** The descriptors a log shows closed, in order. *)
Fixpoint closes_of (log : list event) : list Z :=
  match log with
  | [] => []
  | EvClose fd :: log' => fd :: closes_of log'
  | _ :: log' => closes_of log'
  end.

(** The [struct ifreq] values a log shows handed to request [req]. *)
Fixpoint ifreqs_of (req : request) (log : list event) : list ifreq :=
  match log with
  | [] => []
  | EvIoctl _ r (Arg_ifreq i) _ :: log' =>
      if request_eqb r req then i :: ifreqs_of req log' else ifreqs_of req log'
  | _ :: log' => ifreqs_of req log'
  end.

(** What the system answers to each operation of [tun_alloc]. *)
Definition answer (k : os) (o : op) : Z :=
  match o with
  | OpOpen => os_open k tun_path O_RDWR
  | OpIoctl req => os_ioctl k req
  | OpSocket => os_socket k AF_INET SOCK_DGRAM 0
  end.

(** The operations up to and including the first one answered with a
    negative value. *)
Fixpoint until_failure (k : os) (l : list op) : list op :=
  match l with
  | [] => []
  | o :: l' => if answer k o <? 0 then [o] else o :: until_failure k l'
  end.

(** ** Vocabulary of the statements *)

(** Length of the leading run of non-zero bytes at [p], capped at [n]. *)
Fixpoint nonzero_run (m : mem) (p : Z) (n : nat) : nat :=
  match n with
  | O => O
  | S n' => if load m p =? 0 then O else S (nonzero_run m (p + 1) n')
  end.

(** The four address and flag requests issued on the control socket before
    the route is added. *)
Definition config_steps : list op :=
  [OpIoctl SIOCSIFADDR; OpIoctl SIOCSIFDSTADDR; OpIoctl SIOCGIFFLAGS;
   OpIoctl SIOCSIFFLAGS].

(** ** Sample systems *)

(** A system that answers [o] to [open], [s] to [socket] and [f req] to
    each [ioctl], names the interface [tun5], reports the flags
    [IFF_POINTOPOINT | IFF_NOARP | IFF_MULTICAST] and parses every
    address as 10.0.0.1. *)
Definition scripted_os (o s : Z) (f : request -> Z) : os :=
  {| os_open := fun _ _ => o;
     os_socket := fun _ _ _ => s;
     os_ioctl := f;
     os_ifreq := fun req i =>
       match req with
       | TUNSETIFF =>
           {| ifr_name := [116; 117; 110; 53; 0]; ifr_union := ifr_union i |}
       | SIOCGIFFLAGS =>
           {| ifr_name := ifr_name i; ifr_union := Ifru_flags 0x1090 |}
       | _ => i
       end;
     os_inet_addr := fun _ => 0x0100000a |}.

(** Every call succeeds: the device is descriptor 3, the socket 4. *)
Definition os_ok : os := scripted_os 3 4 (fun _ => 0).

(** The device cannot be opened. *)
Definition os_no_device : os := scripted_os (-1) 4 (fun _ => 0).

(** Only the request [bad] fails. *)
Definition os_failing (bad : request) : os :=
  scripted_os 3 4 (fun req => if request_eqb req bad then -1 else 0).

(** A memory holding the text [tun0] at address 2000 and zeros elsewhere. *)
Definition sample_mem : mem :=
  store_bytes (fun _ => 0) 2000 [116; 117; 110; 48; 0].

(** A process with the three standard descriptors open, about to call
    [tun_alloc(dev, ...)] with [dev = 2000]; its [ifr] will lie at 1000. *)
Definition sample_world : world :=
  {| w_mem := sample_mem; w_fds := [0; 1; 2]; w_log := [] |}.

(** A memory whose bytes are all 7 except for the text [a] at address 2000
    and a zero at address 1002. *)
Definition dirty_mem : mem :=
  store (store_bytes (fun _ => 7) 2000 [97; 0]) 1002 0.

(** ** Further vocabulary *)

(** The first operation of [l] that the system answers with a negative
    value. *)
Fixpoint first_failure (k : os) (l : list op) : option op :=
  match l with
  | [] => None
  | o :: l' => if answer k o <? 0 then Some o else first_failure k l'
  end.

(** The format of the line that reports the failure of each operation;
    a failed [open] is not reported. *)
Definition diagnostic (o : op) : option string :=
  match o with
  | OpOpen => None
  | OpIoctl TUNSETIFF => Some "ioctl failed: %s\n"%string
  | OpSocket => Some "opening socket failed: %s\n"%string
  | OpIoctl SIOCSIFADDR => Some "setting ip address failed: %s\n"%string
  | OpIoctl SIOCSIFDSTADDR => Some "setting peer address failed: %s\n"%string
  | OpIoctl SIOCGIFFLAGS => Some "getting flags failed: %s\n"%string
  | OpIoctl SIOCSIFFLAGS => Some "setting flags failed: %s\n"%string
  | OpIoctl SIOCADDRT => Some "adding route failed: %s\n"%string
  end.

(** The formats a log shows printed, in order. *)
Fixpoint printfs_of (log : list event) : list string :=
  match log with
  | [] => []
  | EvPrintf f :: log' => f :: printfs_of log'
  | _ :: log' => printfs_of log'
  end.

(** The request and the descriptor of every [ioctl] a log shows. *)
Fixpoint ioctl_targets (log : list event) : list (request * Z) :=
  match log with
  | [] => []
  | EvIoctl fd req _ _ :: log' => (req, fd) :: ioctl_targets log'
  | _ :: log' => ioctl_targets log'
  end.

(** The route entries a log shows handed to [ioctl]. *)
Fixpoint rtentries_of (log : list event) : list rtentry :=
  match log with
  | [] => []
  | EvIoctl _ _ (Arg_rtentry rt) _ :: log' => rt :: rtentries_of log'
  | _ :: log' => rtentries_of log'
  end.

(** The [struct ifreq] that [tun_alloc] hands to the create/attach
    request, and the name the system leaves in it, as it lies in the
    name array afterwards. *)
Definition tunsetiff_request : ifreq :=
  {| ifr_name := repeat 0 name_len; ifr_union := Ifru_flags IFF_TUN |}.

Definition assigned_name (k : os) : list Z :=
  fit name_len (ifr_name (os_ifreq k TUNSETIFF tunsetiff_request)).

(** ** Facts about machine integers *)

Module IntFacts.
Import Int.

Lemma wrap_small z : in_range z -> wrap z = z.
Proof.
  unfold in_range, wrap, min_signed, max_signed, half_modulus, modulus.
  intros H. rewrite Z.mod_small; lia.
Qed.

Lemma wrap_in_range z : in_range (wrap z).
Proof.
  unfold in_range, wrap, min_signed, max_signed, half_modulus, modulus.
  pose proof (Z.mod_pos_bound (z + 2 ^ 31) (2 ^ 32) ltac:(lia)). lia.
Qed.

End IntFacts.

(** ** Facts about byte memory *)

Lemma load_store_same m p v : load (store m p v) p = v.
Proof. unfold load, store. now rewrite Z.eqb_refl. Qed.

Lemma load_store_other m p v a : a <> p -> load (store m p v) a = load m a.
Proof.
  unfold load, store. intros H.
  destruct (Z.eqb_spec a p); [contradiction | reflexivity].
Qed.

Lemma addrs_length p n : List.length (addrs p n) = n.
Proof. revert p. induction n as [|n IH]; intros p; simpl; [|rewrite IH]; reflexivity. Qed.

Lemma in_addrs a p n : In a (addrs p n) <-> p <= a < p + Z.of_nat n.
Proof.
  revert p. induction n as [|n IH]; intros p; simpl.
  - lia.
  - rewrite IH. lia.
Qed.

Lemma addrs_snoc p n : addrs p (S n) = addrs p n ++ [p + Z.of_nat n].
Proof.
  revert p. induction n as [|n IH]; intros p.
  - simpl. now rewrite Z.add_0_r.
  - change (addrs p (S (S n))) with (p :: addrs (p + 1) (S n)).
    rewrite IH. simpl. do 3 f_equal. lia.
Qed.

Lemma store_bytes_outside m p l a :
  ~ (p <= a < p + Z.of_nat (List.length l)) -> store_bytes m p l a = m a.
Proof.
  revert m p. induction l as [|b l IH]; intros m p H; simpl in *.
  - reflexivity.
  - rewrite IH by lia. apply load_store_other. lia.
Qed.

Lemma store_bytes_inside m p l i :
  (i < List.length l)%nat ->
  store_bytes m p l (p + Z.of_nat i) = nth i l 0.
Proof.
  revert m p i. induction l as [|b l IH]; intros m p i H; simpl in *.
  - lia.
  - destruct i as [|i].
    + rewrite store_bytes_outside by lia.
      rewrite Z.add_0_r. apply load_store_same.
    + replace (p + Z.of_nat (S i)) with (p + 1 + Z.of_nat i) by lia.
      apply IH. lia.
Qed.

Lemma load_bytes_store_bytes m p l :
  load_bytes (store_bytes m p l) p (List.length l) = l.
Proof.
  unfold load_bytes.
  apply nth_error_ext. intros i.
  rewrite nth_error_map.
  destruct (Nat.lt_ge_cases i (List.length l)) as [Hi|Hi].
  - assert (Ha : nth_error (addrs p (List.length l)) i = Some (p + Z.of_nat i)).
    { clear m. revert p i Hi. induction (List.length l) as [|n IH]; intros p i Hi.
      - lia.
      - destruct i as [|i]; simpl.
        + f_equal. lia.
        + rewrite IH by lia. f_equal. lia. }
    rewrite Ha. simpl. unfold load. rewrite store_bytes_inside by assumption.
    symmetry. apply nth_error_nth'. assumption.
  - assert (Hn : nth_error l i = None) by (apply nth_error_None; lia).
    rewrite Hn.
    assert (Ha : nth_error (addrs p (List.length l)) i = None).
    { apply nth_error_None. rewrite addrs_length. lia. }
    now rewrite Ha.
Qed.

Lemma memset_zero_bytes m p n : load_bytes (memset m p 0 n) p n = repeat 0 n.
Proof.
  unfold memset.
  pose proof (load_bytes_store_bytes m p (repeat 0 n)) as H.
  now rewrite repeat_length in H.
Qed.

(** ** The loops of [strscpy_pad] *)

Lemma nonzero_run_le m p n : (nonzero_run m p n <= n)%nat.
Proof.
  revert p. induction n as [|n IH]; intros p; simpl.
  - lia.
  - destruct (load m p =? 0); [lia | specialize (IH (p + 1)); lia].
Qed.

Lemma nonzero_run_store m a v p n :
  a < p -> nonzero_run (store m a v) p n = nonzero_run m p n.
Proof.
  revert p. induction n as [|n IH]; intros p H; simpl.
  - reflexivity.
  - rewrite load_store_other by lia. rewrite IH by lia. reflexivity.
Qed.

Module StrscpyFacts.
Import Strscpy.

Lemma countdown_nat n :
  Z.of_nat n <= Int.max_signed -> countdown (Z.of_nat n) = n.
Proof.
  unfold countdown, Int.max_signed, Int.half_modulus, Int.modulus.
  intros H. rewrite Z.mod_small by lia. apply Nat2Z.id.
Qed.

Lemma wrap_pred n :
  Z.of_nat (S n) <= Int.max_signed ->
  Int.wrap (Z.of_nat (S n) - 1) = Z.of_nat n.
Proof.
  intros H. rewrite IntFacts.wrap_small.
  - lia.
  - unfold Int.in_range, Int.min_signed, Int.max_signed, Int.half_modulus in *.
    lia.
Qed.

(** The first loop stops after exactly the leading non-zero run of the
    destination, having stored one source byte per iteration. *)
Lemma copy_loop_run n : forall fuel s,
  size s = Z.of_nat n ->
  Z.of_nat n <= Int.max_signed ->
  (n <= fuel)%nat ->
  let r := nonzero_run (l_mem s) (dst s) n in
  exists s',
    copy_loop fuel s = Some s' /\
    dst s' = dst s + Z.of_nat r /\
    src s' = src s + Z.of_nat r /\
    size s' = Z.of_nat (n - r) /\
    stores s' = stores s ++ addrs (dst s) r /\
    (forall a, ~ (dst s <= a < dst s + Z.of_nat r) ->
               load (l_mem s') a = load (l_mem s) a) /\
    (src s + Z.of_nat n <= dst s \/ dst s + Z.of_nat n <= src s ->
     forall i, 0 <= i < Z.of_nat r ->
               load (l_mem s') (dst s + i) = load (l_mem s) (src s + i)).
Proof.
  induction n as [|n IH]; intros fuel s Hsz Hmax Hfuel r.
  - exists s. subst r. simpl.
    assert (Hg : copy_guard s = false).
    { unfold copy_guard. rewrite Hsz. simpl. apply andb_false_r. }
    destruct fuel; simpl; rewrite Hg;
      repeat split; try lia; try (now rewrite app_nil_r); intros; lia.
  - subst r. simpl. destruct (Z.eqb_spec (load (l_mem s) (dst s)) 0) as [Hz|Hnz].
    + exists s.
      assert (Hg : copy_guard s = false).
      { unfold copy_guard. rewrite Hz. reflexivity. }
      destruct fuel; simpl; rewrite Hg;
        repeat split; try lia; try (now rewrite app_nil_r); intros; lia.
    + assert (Hg : copy_guard s = true).
      { unfold copy_guard. rewrite Hsz.
        destruct (Z.eqb_spec (load (l_mem s) (dst s)) 0); [contradiction|].
        reflexivity. }
      destruct fuel as [|fuel]; [lia|].
      simpl. rewrite Hg.
      destruct (IH fuel (copy_body s)) as (s' & Hrun & Hd & Hs & Hn & Hst & Hfr & Hcp).
      { simpl. rewrite Hsz. apply wrap_pred. assumption. }
      { lia. }
      { lia. }
      simpl in Hd, Hs, Hn, Hst, Hfr, Hcp.
      rewrite nonzero_run_store in * by lia.
      set (r := nonzero_run (l_mem s) (dst s + 1) n) in *.
      exists s'. split; [exact Hrun|].
      split; [lia|]. split; [lia|]. split; [exact Hn|].
      split; [rewrite Hst, <- app_assoc; reflexivity|].
      split.
      * intros a Ha. rewrite Hfr by lia. apply load_store_other. lia.
      * intros Hdisj i Hi.
        destruct (Z.eq_dec i 0) as [->|Hi0].
        -- rewrite !Z.add_0_r. rewrite Hfr by lia. apply load_store_same.
        -- replace (dst s + i) with (dst s + 1 + (i - 1)) by lia.
           rewrite Hcp by lia.
           pose proof (nonzero_run_le (l_mem s) (dst s + 1) n).
           fold r in H.
           rewrite load_store_other by lia. f_equal. lia.
Qed.

(** The second loop only counts down. *)
Lemma pad_loop_run n : forall fuel s,
  size s = Z.of_nat n ->
  Z.of_nat n <= Int.max_signed ->
  (n <= fuel)%nat ->
  exists s',
    pad_loop fuel s = Some s' /\
    l_mem s' = l_mem s /\ stores s' = stores s /\ src s' = src s /\
    size s' = 0.
Proof.
  induction n as [|n IH]; intros fuel s Hsz Hmax Hfuel.
  - exists s.
    assert (Hg : pad_guard s = false) by (unfold pad_guard; now rewrite Hsz).
    destruct fuel; simpl; rewrite Hg; repeat split; assumption.
  - assert (Hg : pad_guard s = true).
    { unfold pad_guard. rewrite Hsz. reflexivity. }
    destruct fuel as [|fuel]; [lia|].
    simpl. rewrite Hg.
    destruct (IH fuel (pad_body s)) as (s' & Hrun & Hm & Hst & Hs & Hn).
    { simpl. rewrite Hsz. apply wrap_pred. assumption. }
    { lia. }
    { lia. }
    exists s'. repeat split; assumption.
Qed.

(** What a call does, for a size that an [int] can hold and that is not
    negative. *)
Lemma strscpy_pad_run m d s n :
  0 <= n <= Int.max_signed ->
  let r := nonzero_run m d (Z.to_nat n) in
  exists l,
    strscpy_pad m d s n = Some (Z.of_nat r, l) /\
    dst l = 0 /\
    size l = 0 /\
    stores l = addrs d r /\
    (forall a, ~ (d <= a < d + Z.of_nat r) -> load (l_mem l) a = load m a) /\
    (s + n <= d \/ d + n <= s ->
     forall i, 0 <= i < Z.of_nat r -> load (l_mem l) (d + i) = load m (s + i)).
Proof.
  intros Hn r.
  assert (Hnn : n = Z.of_nat (Z.to_nat n)) by lia.
  set (s0 := {| l_mem := m; dst := d; src := s; size := n; stores := [] |}).
  destruct (copy_loop_run (Z.to_nat n) (countdown n) s0)
    as (s1 & Hrun & Hd & Hs & Hsz & Hst & Hfr & Hcp).
  { exact Hnn. }
  { lia. }
  { rewrite Hnn at 2. rewrite countdown_nat by lia. lia. }
  simpl in Hd, Hs, Hsz, Hst, Hfr, Hcp. fold r in Hd, Hs, Hsz, Hst, Hfr, Hcp.
  pose proof (nonzero_run_le m d (Z.to_nat n)) as Hle. fold r in Hle.
  destruct (pad_loop_run (Z.to_nat n - r) (countdown (size s1)) s1)
    as (s2 & Hrun2 & Hm2 & Hst2 & Hs2 & Hsz2).
  { exact Hsz. }
  { lia. }
  { rewrite Hsz, countdown_nat by lia. lia. }
  exists (final_assign s2).
  unfold strscpy_pad. fold s0. rewrite Hrun, Hrun2.
  split.
  { f_equal. f_equal. rewrite Hsz.
    rewrite IntFacts.wrap_small.
    - lia.
    - unfold Int.in_range, Int.min_signed, Int.max_signed, Int.half_modulus in *.
      lia. }
  simpl. rewrite Hm2, Hst2.
  split; [reflexivity|]. split; [assumption|]. split; [assumption|].
  split; [assumption|].
  intros Hdisj. apply Hcp. lia.
Qed.

End StrscpyFacts.

Module StrscpyTotal.
Import Strscpy.

Lemma countdown_step z :
  Int.in_range z -> z <> 0 ->
  countdown z = S (countdown (Int.wrap (z - 1))).
Proof.
  unfold countdown, Int.in_range, Int.wrap, Int.min_signed, Int.max_signed,
    Int.half_modulus, Int.modulus.
  intros Hr Hz.
  rewrite <- Z2Nat.inj_succ by (apply Z.mod_pos_bound; lia).
  f_equal.
  change (2 ^ 31) with 2147483648 in *. change (2 ^ 32) with 4294967296 in *.
  Z.div_mod_to_equations. lia.
Qed.

(** Both loops end for every [int] size, negative ones included. *)
Lemma copy_loop_returns c : forall fuel s,
  Int.in_range (size s) -> countdown (size s) = c -> (c <= fuel)%nat ->
  exists s', copy_loop fuel s = Some s' /\ Int.in_range (size s').
Proof.
  induction c as [|c IH]; intros fuel s Hr Hc Hfuel.
  - assert (Hz : size s = 0).
    { destruct (Z.eq_dec (size s) 0) as [|Hnz]; [assumption|].
      rewrite countdown_step in Hc by assumption. discriminate. }
    exists s. split; [|assumption].
    assert (Hg : copy_guard s = false).
    { unfold copy_guard. rewrite Hz. apply andb_false_r. }
    destruct fuel; simpl; rewrite Hg; reflexivity.
  - destruct (copy_guard s) eqn:Hg.
    + destruct fuel as [|fuel]; [lia|]. simpl. rewrite Hg.
      apply IH.
      * apply IntFacts.wrap_in_range.
      * assert (Hnz : size s <> 0).
        { unfold copy_guard in Hg. apply andb_prop in Hg. destruct Hg as [_ Hg].
          destruct (Z.eqb_spec (size s) 0); [discriminate | assumption]. }
        rewrite countdown_step in Hc by assumption. simpl. congruence.
      * lia.
    + exists s. split; [|assumption].
      destruct fuel; simpl; rewrite Hg; reflexivity.
Qed.

Lemma pad_loop_returns c : forall fuel s,
  Int.in_range (size s) -> countdown (size s) = c -> (c <= fuel)%nat ->
  exists s', pad_loop fuel s = Some s'.
Proof.
  induction c as [|c IH]; intros fuel s Hr Hc Hfuel.
  - assert (Hz : size s = 0).
    { destruct (Z.eq_dec (size s) 0) as [|Hnz]; [assumption|].
      rewrite countdown_step in Hc by assumption. discriminate. }
    exists s.
    assert (Hg : pad_guard s = false) by (unfold pad_guard; now rewrite Hz).
    destruct fuel; simpl; rewrite Hg; reflexivity.
  - destruct (pad_guard s) eqn:Hg.
    + destruct fuel as [|fuel]; [lia|]. simpl. rewrite Hg.
      apply IH.
      * apply IntFacts.wrap_in_range.
      * assert (Hnz : size s <> 0).
        { unfold pad_guard in Hg.
          destruct (Z.eqb_spec (size s) 0); [discriminate | assumption]. }
        rewrite countdown_step in Hc by assumption. simpl. congruence.
      * lia.
    + exists s. destruct fuel; simpl; rewrite Hg; reflexivity.
Qed.

Lemma strscpy_pad_returns m d s n :
  Int.in_range n -> exists r l, strscpy_pad m d s n = Some (r, l).
Proof.
  intros Hr. unfold strscpy_pad.
  destruct (copy_loop_returns (countdown n) (countdown n)
              {| l_mem := m; dst := d; src := s; size := n; stores := [] |})
    as (s1 & H1 & Hr1); [assumption | reflexivity | lia |].
  rewrite H1.
  destruct (pad_loop_returns (countdown (size s1)) (countdown (size s1)) s1)
    as (s2 & H2); [assumption | reflexivity | lia |].
  rewrite H2. eauto.
Qed.

(** On a destination whose first byte is zero nothing is copied. *)
Lemma strscpy_pad_zero_head m d s n :
  0 <= n <= Int.max_signed -> load m d = 0 ->
  exists l, strscpy_pad m d s n = Some (0, l) /\
            l_mem l = m /\ stores l = [].
Proof.
  intros Hn Hz. unfold strscpy_pad.
  set (s0 := {| l_mem := m; dst := d; src := s; size := n; stores := [] |}).
  assert (Hg : copy_guard s0 = false).
  { unfold copy_guard. simpl. rewrite Hz. reflexivity. }
  assert (H1 : copy_loop (countdown n) s0 = Some s0).
  { destruct (countdown n); simpl; rewrite Hg; reflexivity. }
  rewrite H1.
  destruct (StrscpyFacts.pad_loop_run (Z.to_nat n) (countdown (size s0)) s0)
    as (s2 & H2 & Hm & Hst & _).
  { simpl. lia. }
  { lia. }
  { simpl. replace n with (Z.of_nat (Z.to_nat n)) at 2 by lia.
    rewrite StrscpyFacts.countdown_nat by lia. lia. }
  rewrite H2. exists (final_assign s2). simpl.
  rewrite Z.sub_diag. repeat split; assumption.
Qed.

End StrscpyTotal.

(** ** Running [tun_alloc] *)

Lemma memset_head m p n : (0 < n)%nat -> load (memset m p 0 n) p = 0.
Proof.
  intros Hn. unfold memset, load.
  pose proof (store_bytes_inside m p (repeat 0 n) 0) as H.
  rewrite repeat_length, Z.add_0_r in H. rewrite H by assumption.
  destruct n; [lia | reflexivity].
Qed.

Lemma name_len_pos : (0 < name_len)%nat.
Proof. vm_compute. lia. Qed.

Lemma IFNAMSIZ_int : 0 <= IFNAMSIZ <= Int.max_signed.
Proof. now vm_compute. Qed.

(** The name copy of [tun_alloc] finds a zeroed array and changes nothing. *)
Lemma copy_name_noop p dev (b : bool) m fds log :
  load m p = 0 ->
  (if b then call_strscpy_pad p dev IFNAMSIZ else ret 0)
    {| w_mem := m; w_fds := fds; w_log := log |}
  = Some (0, {| w_mem := m; w_fds := fds; w_log := log |}).
Proof.
  intros Hz. destruct b; [|reflexivity].
  unfold call_strscpy_pad. simpl.
  destruct (StrscpyTotal.strscpy_pad_zero_head m p dev IFNAMSIZ IFNAMSIZ_int Hz)
    as (l & Hl & Hm & _).
  rewrite Hl, Hm. reflexivity.
Qed.

Lemma release_head a l : release a (a :: l) = l.
Proof. simpl. now rewrite Z.eqb_refl. Qed.

Lemma release_second a b l : release a (b :: a :: l) = b :: l.
Proof.
  simpl. destruct (Z.eqb_spec b a) as [->|_]; [reflexivity|].
  now rewrite Z.eqb_refl.
Qed.

(** Symbolic execution: unfold the calls, then follow the program through
    its tests in order, closing every path that returns with [fin]. *)
Ltac unfold_calls :=
  unfold tun_alloc, bind, sys_open, sys_socket, sys_close, ioctl_ifreq,
    ioctl_rtentry, printf, log_event, deref, memset_ifr, strcpy_ifr_name,
    ret, acquire;
  cbn [w_mem w_fds w_log fst snd].

Ltac test_answer a fin :=
  destruct (Z.ltb_spec a 0);
  cbn [w_mem w_fds w_log fst snd];
  [ solve [fin] | ].

Ltac each_path k fin :=
  unfold_calls;
  test_answer (os_open k tun_path O_RDWR) fin;
  rewrite copy_name_noop by (apply memset_head, name_len_pos);
  cbn [w_mem w_fds w_log fst snd];
  rewrite memset_zero_bytes;
  test_answer (os_ioctl k TUNSETIFF) fin;
  test_answer (os_socket k AF_INET SOCK_DGRAM 0) fin;
  test_answer (os_ioctl k SIOCSIFADDR) fin;
  test_answer (os_ioctl k SIOCSIFDSTADDR) fin;
  test_answer (os_ioctl k SIOCGIFFLAGS) fin;
  test_answer (os_ioctl k SIOCSIFFLAGS) fin;
  test_answer (os_ioctl k SIOCADDRT) fin;
  fin.

(** Name the result of a finished path and expose the events it added. *)
Ltac finished :=
  eexists _, _, _; split; [reflexivity|];
  cbn [w_log w_fds w_mem]; rewrite <- ?app_assoc;
  split; [reflexivity|];
  rewrite ?release_second, ?release_head;
  cbn [app ops_of closes_of ifreqs_of request_eqb].

(** [tun_alloc] returns, whatever the system answers. *)
Lemma tun_alloc_returns k p dev self peer w :
  exists r w', tun_alloc k p dev self peer w = Some (r, w').
Proof.
  each_path k ltac:(eexists _, _; reflexivity).
Qed.


(** ** The fixed-name copier *)

(** C4.  Two runs in which the destination does not end up holding the
    source text followed by zero padding.  With the 4-byte destination
    7, 7, 0, 7 and the source text [a], [strscpy_pad] returns 2 and
    leaves 97, 0, 0, 7: the last byte is not zeroed, and the value
    returned is not the length 1 of the text.  With the zeroed 16-byte
    name array of [tun_alloc] and the source text [tun0] it returns 0 and
    leaves the array all zeros: the text is not copied. *)
Theorem strscpy_pad_neither_copies_nor_pads :
  (exists l,
     Strscpy.strscpy_pad dirty_mem 1000 2000 4 = Some (2, l) /\
     load_bytes dirty_mem 1000 4 = [7; 7; 0; 7] /\
     load_bytes dirty_mem 2000 2 = [97; 0] /\
     load_bytes (Strscpy.l_mem l) 1000 4 = [97; 0; 0; 7] /\
     load_bytes (Strscpy.l_mem l) 1000 4 <> [97] ++ repeat 0 3) /\
  (exists l,
     Strscpy.strscpy_pad (memset sample_mem 1000 0 16) 1000 2000 16
       = Some (0, l) /\
     load_bytes sample_mem 2000 5 = [116; 117; 110; 48; 0] /\
     load_bytes (Strscpy.l_mem l) 1000 16 = repeat 0 16 /\
     load_bytes (Strscpy.l_mem l) 1000 16
       <> [116; 117; 110; 48] ++ repeat 0 12).
Proof.
  split; eexists; (split; [vm_compute; reflexivity|]);
    repeat (split; [vm_compute; reflexivity|]);
    vm_compute; discriminate.
Qed.

(** C9.  For a size [n] that is not negative, [strscpy_pad(d, s, n)]
    returns and every store it makes is to one of the first [n] bytes of
    the destination; the bytes at offset [n] and beyond hold what they
    held before the call. *)
Theorem strscpy_pad_stores_in_bounds m d s n :
  0 <= n <= Int.max_signed ->
  exists r l,
    Strscpy.strscpy_pad m d s n = Some (r, l) /\
    (forall a, In a (Strscpy.stores l) -> d <= a < d + n) /\
    (forall a, d + n <= a -> load (Strscpy.l_mem l) a = load m a).
Proof.
  intros Hn.
  destruct (StrscpyFacts.strscpy_pad_run m d s n Hn)
    as (l & Hrun & _ & _ & Hst & Hfr & _).
  pose proof (nonzero_run_le m d (Z.to_nat n)) as Hle.
  eexists _, l. split; [exact Hrun|]. split.
  - intros a Ha. rewrite Hst in Ha. apply in_addrs in Ha. lia.
  - intros a Ha. apply Hfr. lia.
Qed.

Lemma strscpy_pad_stores_in_bounds_witness :
  0 <= 4 <= Int.max_signed /\
  exists r l,
    Strscpy.strscpy_pad dirty_mem 1000 2000 4 = Some (r, l) /\
    (forall a, In a (Strscpy.stores l) -> 1000 <= a < 1000 + 4) /\
    (forall a, 1000 + 4 <= a -> load (Strscpy.l_mem l) a = load dirty_mem a).
Proof.
  split; [vm_compute; split; discriminate|].
  apply (strscpy_pad_stores_in_bounds dirty_mem 1000 2000 4).
  vm_compute; split; discriminate.
Defined.

(** C10.  For a size [n] that is not negative, [strscpy_pad(d, s, n)]
    stores exactly to the leading run of destination bytes that were
    non-zero before the call, capped at [n]; it returns the length of that
    run; every other byte of memory is unchanged; when source and
    destination do not overlap each byte of the run holds the source byte
    at the same offset; and the local pointer is null at the return.  The
    padding loop and the last assignment therefore store nothing. *)
Theorem strscpy_pad_frame m d s n :
  0 <= n <= Int.max_signed ->
  let r := nonzero_run m d (Z.to_nat n) in
  exists l,
    Strscpy.strscpy_pad m d s n = Some (Z.of_nat r, l) /\
    Strscpy.stores l = addrs d r /\
    (forall a, ~ (d <= a < d + Z.of_nat r) ->
               load (Strscpy.l_mem l) a = load m a) /\
    (s + n <= d \/ d + n <= s ->
     forall i, 0 <= i < Z.of_nat r ->
               load (Strscpy.l_mem l) (d + i) = load m (s + i)) /\
    Strscpy.dst l = 0.
Proof.
  intros Hn r.
  destruct (StrscpyFacts.strscpy_pad_run m d s n Hn)
    as (l & Hrun & Hd & _ & Hst & Hfr & Hcp).
  exists l. repeat split; assumption.
Qed.

Lemma strscpy_pad_frame_witness :
  0 <= 4 <= Int.max_signed /\
  exists l,
    Strscpy.strscpy_pad dirty_mem 1000 2000 4 = Some (2, l) /\
    Strscpy.stores l = [1000; 1001] /\
    (forall a, ~ (1000 <= a < 1000 + 2) ->
               load (Strscpy.l_mem l) a = load dirty_mem a) /\
    (2000 + 4 <= 1000 \/ 1000 + 4 <= 2000 ->
     forall i, 0 <= i < 2 ->
               load (Strscpy.l_mem l) (1000 + i) = load dirty_mem (2000 + i)) /\
    Strscpy.dst l = 0.
Proof.
  split; [vm_compute; split; discriminate|].
  apply (strscpy_pad_frame dirty_mem 1000 2000 4).
  vm_compute; split; discriminate.
Defined.

(** ** The allocator *)

(** C8.  When [open] fails, [tun_alloc] returns -1 (whatever negative
    value [open] gave), and the [open] is the only call it has made:
    the descriptor table and memory are as they were. *)
Theorem tun_alloc_open_failure k p dev self_ip peer_ip w :
  answer k OpOpen < 0 ->
  tun_alloc k p dev self_ip peer_ip w
  = Some (-1, {| w_mem := w_mem w; w_fds := w_fds w;
                 w_log := w_log w ++ [EvOpen tun_path O_RDWR (answer k OpOpen)] |}).
Proof.
  unfold answer. intros Hneg. unfold_calls.
  destruct (Z.ltb_spec (os_open k tun_path O_RDWR) 0); [reflexivity | lia].
Qed.

Lemma tun_alloc_open_failure_witness :
  answer os_no_device OpOpen < 0 /\
  tun_alloc os_no_device 1000 2000 "10.0.0.1" "10.0.0.2" sample_world
  = Some (-1, {| w_mem := w_mem sample_world; w_fds := w_fds sample_world;
                 w_log := w_log sample_world
                          ++ [EvOpen tun_path O_RDWR (answer os_no_device OpOpen)] |}).
Proof.
  split; [reflexivity|].
  apply (tun_alloc_open_failure os_no_device 1000 2000 "10.0.0.1" "10.0.0.2"
           sample_world).
  reflexivity.
Defined.

(** C6.  Whatever the system answers, [tun_alloc] returns, and the kernel
    operations it has issued are, in order, open device, create/attach
    interface, open control socket, set address, set destination address,
    get flags, set flags, add route, cut after the first operation that
    failed: nothing is issued after a failure and nothing twice. *)
Theorem tun_alloc_linear_order k p dev self_ip peer_ip w :
  exists r w' evs,
    tun_alloc k p dev self_ip peer_ip w = Some (r, w') /\
    w_log w' = w_log w ++ evs /\
    ops_of evs = until_failure k steps.
Proof.
  unfold steps, until_failure, answer.
  each_path k ltac:(finished; reflexivity).
Qed.

(** C1.  When [open] succeeds and a later operation fails, [tun_alloc]
    returns a negative value, the descriptor table is back to what it was
    before the call, the device descriptor has been closed, and so has
    the socket if it was opened. *)
Theorem tun_alloc_failure_releases k p dev self_ip peer_ip w :
  0 <= answer k OpOpen ->
  (exists o, In o (tl steps) /\ answer k o < 0) ->
  exists r w' evs,
    tun_alloc k p dev self_ip peer_ip w = Some (r, w') /\
    w_log w' = w_log w ++ evs /\
    r < 0 /\
    w_fds w' = w_fds w /\
    In (answer k OpOpen) (closes_of evs) /\
    (In OpSocket (ops_of evs) -> 0 <= answer k OpSocket ->
     In (answer k OpSocket) (closes_of evs)).
Proof.
  unfold steps, answer. intros Hopen (o & Hin & Hneg).
  assert (Hfail :
    os_ioctl k TUNSETIFF < 0 \/ os_socket k AF_INET SOCK_DGRAM 0 < 0 \/
    os_ioctl k SIOCSIFADDR < 0 \/ os_ioctl k SIOCSIFDSTADDR < 0 \/
    os_ioctl k SIOCGIFFLAGS < 0 \/ os_ioctl k SIOCSIFFLAGS < 0 \/
    os_ioctl k SIOCADDRT < 0).
  { simpl in Hin. intuition (subst o; simpl in Hneg; auto). }
  clear o Hin Hneg.
  each_path k ltac:(first
    [ exfalso; lia
    | finished; repeat split; simpl; try assumption; try reflexivity;
      try lia; auto; intuition (discriminate || lia) ]).
Qed.

Lemma tun_alloc_failure_releases_witness :
  0 <= answer (os_failing SIOCGIFFLAGS) OpOpen /\
  (exists o, In o (tl steps) /\ answer (os_failing SIOCGIFFLAGS) o < 0) /\
  exists r w' evs,
    tun_alloc (os_failing SIOCGIFFLAGS) 1000 2000 "10.0.0.1" "10.0.0.2"
      sample_world = Some (r, w') /\
    w_log w' = w_log sample_world ++ evs /\
    r < 0 /\
    w_fds w' = w_fds sample_world /\
    In (answer (os_failing SIOCGIFFLAGS) OpOpen) (closes_of evs) /\
    (In OpSocket (ops_of evs) -> 0 <= answer (os_failing SIOCGIFFLAGS) OpSocket ->
     In (answer (os_failing SIOCGIFFLAGS) OpSocket) (closes_of evs)).
Proof.
  assert (H1 : 0 <= answer (os_failing SIOCGIFFLAGS) OpOpen)
    by (vm_compute; discriminate).
  assert (H2 : exists o, In o (tl steps) /\ answer (os_failing SIOCGIFFLAGS) o < 0).
  { exists (OpIoctl SIOCGIFFLAGS). split; [simpl; tauto | reflexivity]. }
  split; [exact H1|]. split; [exact H2|].
  exact (tun_alloc_failure_releases (os_failing SIOCGIFFLAGS) 1000 2000
           "10.0.0.1" "10.0.0.2" sample_world H1 H2).
Defined.

(** C7.  When every operation succeeds, [tun_alloc] returns the
    descriptor that [open] gave, which is not negative; its last call is
    the [close] of the socket and it makes no other [close]; the device
    descriptor is left in the descriptor table, and it is never closed
    (the socket being another descriptor than the device). *)
Theorem tun_alloc_success k p dev self_ip peer_ip w :
  (forall o, In o steps -> 0 <= answer k o) ->
  exists r w' evs,
    tun_alloc k p dev self_ip peer_ip w = Some (r, w') /\
    w_log w' = w_log w ++ evs /\
    r = answer k OpOpen /\
    0 <= r /\
    (exists evs0, evs = evs0 ++ [EvClose (answer k OpSocket)] /\
                  closes_of evs0 = []) /\
    closes_of evs = [answer k OpSocket] /\
    w_fds w' = answer k OpOpen :: w_fds w /\
    (answer k OpSocket <> answer k OpOpen -> ~ In (EvClose r) evs).
Proof.
  intros Hok.
  assert (H1 := Hok OpOpen ltac:(simpl; tauto)).
  assert (H2 := Hok (OpIoctl TUNSETIFF) ltac:(simpl; tauto)).
  assert (H3 := Hok OpSocket ltac:(simpl; tauto)).
  assert (H4 := Hok (OpIoctl SIOCSIFADDR) ltac:(simpl; tauto)).
  assert (H5 := Hok (OpIoctl SIOCSIFDSTADDR) ltac:(simpl; tauto)).
  assert (H6 := Hok (OpIoctl SIOCGIFFLAGS) ltac:(simpl; tauto)).
  assert (H7 := Hok (OpIoctl SIOCSIFFLAGS) ltac:(simpl; tauto)).
  assert (H8 := Hok (OpIoctl SIOCADDRT) ltac:(simpl; tauto)).
  clear Hok. unfold answer in *.
  each_path k ltac:(first
    [ exfalso; lia
    | finished; repeat split; try assumption; try reflexivity;
      [ match goal with
        | |- exists evs0, ?l = _ /\ _ =>
            exists (removelast l); split; reflexivity
        end
      | intros Hne Hin; simpl in Hin;
        intuition (discriminate || congruence) ] ]).
Qed.

Lemma tun_alloc_success_witness :
  (forall o, In o steps -> 0 <= answer os_ok o) /\
  exists r w' evs,
    tun_alloc os_ok 1000 2000 "10.0.0.1" "10.0.0.2" sample_world
      = Some (r, w') /\
    w_log w' = w_log sample_world ++ evs /\
    r = answer os_ok OpOpen /\
    0 <= r /\
    (exists evs0, evs = evs0 ++ [EvClose (answer os_ok OpSocket)] /\
                  closes_of evs0 = []) /\
    closes_of evs = [answer os_ok OpSocket] /\
    w_fds w' = answer os_ok OpOpen :: w_fds sample_world /\
    (answer os_ok OpSocket <> answer os_ok OpOpen -> ~ In (EvClose r) evs).
Proof.
  assert (H : forall o, In o steps -> 0 <= answer os_ok o).
  { intros o Hin. destruct o as [|req|]; [| destruct req |]; vm_compute; discriminate. }
  split; [exact H|].
  exact (tun_alloc_success os_ok 1000 2000 "10.0.0.1" "10.0.0.2" sample_world H).
Defined.

(** C5 as stated fails: when setting the local address fails on a system
    whose device is descriptor 3 and whose socket is descriptor 4, the
    descriptors are closed in the order 3, 4, device first, which is the
    order of acquisition and not its reverse. *)
Lemma release_order_counterexample :
  exists r w',
    tun_alloc (os_failing SIOCSIFADDR) 1000 2000 "10.0.0.1" "10.0.0.2"
      sample_world = Some (r, w') /\
    answer (os_failing SIOCSIFADDR) OpOpen = 3 /\
    answer (os_failing SIOCSIFADDR) OpSocket = 4 /\
    closes_of (w_log w') = [3; 4] /\
    closes_of (w_log w') <> [4; 3].
Proof.
  eexists _, _. split; [vm_compute; reflexivity|].
  repeat split. vm_compute. discriminate.
Qed.

(** C5, amended.  When the device, the interface and the socket were
    obtained and a later operation fails, [tun_alloc] closes both
    descriptors and nothing else: the device first and the socket second
    when one of the four address and flag requests failed, the socket
    first and the device second when adding the route failed. *)
Theorem tun_alloc_release_order k p dev self_ip peer_ip w :
  0 <= answer k OpOpen ->
  0 <= answer k (OpIoctl TUNSETIFF) ->
  0 <= answer k OpSocket ->
  (exists o, In o (config_steps ++ [OpIoctl SIOCADDRT]) /\ answer k o < 0) ->
  exists r w' evs,
    tun_alloc k p dev self_ip peer_ip w = Some (r, w') /\
    w_log w' = w_log w ++ evs /\
    ((exists o, In o config_steps /\ answer k o < 0) ->
     closes_of evs = [answer k OpOpen; answer k OpSocket]) /\
    ((forall o, In o config_steps -> 0 <= answer k o) ->
     closes_of evs = [answer k OpSocket; answer k OpOpen]).
Proof.
  unfold config_steps, answer. intros H1 H2 H3 (o & Hin & Hneg).
  assert (Hfail :
    os_ioctl k SIOCSIFADDR < 0 \/ os_ioctl k SIOCSIFDSTADDR < 0 \/
    os_ioctl k SIOCGIFFLAGS < 0 \/ os_ioctl k SIOCSIFFLAGS < 0 \/
    os_ioctl k SIOCADDRT < 0).
  { simpl in Hin. intuition (subst o; simpl in Hneg; auto). }
  clear o Hin Hneg.
  assert (Hall : forall P : Prop,
    (forall o, In o [OpIoctl SIOCSIFADDR; OpIoctl SIOCSIFDSTADDR;
                     OpIoctl SIOCGIFFLAGS; OpIoctl SIOCSIFFLAGS] ->
               0 <= match o with
                    | OpOpen => os_open k tun_path O_RDWR
                    | OpIoctl req => os_ioctl k req
                    | OpSocket => os_socket k AF_INET SOCK_DGRAM 0
                    end) ->
    (0 <= os_ioctl k SIOCSIFADDR -> 0 <= os_ioctl k SIOCSIFDSTADDR ->
     0 <= os_ioctl k SIOCGIFFLAGS -> 0 <= os_ioctl k SIOCSIFFLAGS -> P) -> P).
  { intros P Hok HP.
    apply HP; [apply (Hok (OpIoctl SIOCSIFADDR)) | apply (Hok (OpIoctl SIOCSIFDSTADDR))
              | apply (Hok (OpIoctl SIOCGIFFLAGS)) | apply (Hok (OpIoctl SIOCSIFFLAGS))];
      simpl; tauto. }
  assert (Hany : forall P : Prop,
    (exists o, In o [OpIoctl SIOCSIFADDR; OpIoctl SIOCSIFDSTADDR;
                     OpIoctl SIOCGIFFLAGS; OpIoctl SIOCSIFFLAGS] /\
               match o with
               | OpOpen => os_open k tun_path O_RDWR
               | OpIoctl req => os_ioctl k req
               | OpSocket => os_socket k AF_INET SOCK_DGRAM 0
               end < 0) ->
    (os_ioctl k SIOCSIFADDR < 0 \/ os_ioctl k SIOCSIFDSTADDR < 0 \/
     os_ioctl k SIOCGIFFLAGS < 0 \/ os_ioctl k SIOCSIFFLAGS < 0 -> P) -> P).
  { intros P (o & Hin & Hneg) HP. apply HP.
    simpl in Hin. intuition (subst o; simpl in Hneg; auto). }
  each_path k ltac:(first
    [ exfalso; lia
    | finished; split;
      [ intros Hex; apply (Hany _ Hex); intros;
        first [reflexivity | exfalso; lia]
      | intros Hok; apply (Hall _ Hok); intros;
        first [reflexivity | exfalso; lia] ] ]).
Qed.

Lemma tun_alloc_release_order_witness :
  0 <= answer (os_failing SIOCADDRT) OpOpen /\
  0 <= answer (os_failing SIOCADDRT) (OpIoctl TUNSETIFF) /\
  0 <= answer (os_failing SIOCADDRT) OpSocket /\
  (exists o, In o (config_steps ++ [OpIoctl SIOCADDRT]) /\
             answer (os_failing SIOCADDRT) o < 0) /\
  exists r w' evs,
    tun_alloc (os_failing SIOCADDRT) 1000 2000 "10.0.0.1" "10.0.0.2"
      sample_world = Some (r, w') /\
    w_log w' = w_log sample_world ++ evs /\
    ((exists o, In o config_steps /\ answer (os_failing SIOCADDRT) o < 0) ->
     closes_of evs = [answer (os_failing SIOCADDRT) OpOpen;
                      answer (os_failing SIOCADDRT) OpSocket]) /\
    ((forall o, In o config_steps -> 0 <= answer (os_failing SIOCADDRT) o) ->
     closes_of evs = [answer (os_failing SIOCADDRT) OpSocket;
                      answer (os_failing SIOCADDRT) OpOpen]).
Proof.
  assert (H1 : 0 <= answer (os_failing SIOCADDRT) OpOpen)
    by (vm_compute; discriminate).
  assert (H2 : 0 <= answer (os_failing SIOCADDRT) (OpIoctl TUNSETIFF))
    by (vm_compute; discriminate).
  assert (H3 : 0 <= answer (os_failing SIOCADDRT) OpSocket)
    by (vm_compute; discriminate).
  assert (H4 : exists o, In o (config_steps ++ [OpIoctl SIOCADDRT]) /\
                         answer (os_failing SIOCADDRT) o < 0).
  { exists (OpIoctl SIOCADDRT). split; [simpl; tauto | reflexivity]. }
  repeat (split; [assumption|]).
  exact (tun_alloc_release_order (os_failing SIOCADDRT) 1000 2000
           "10.0.0.1" "10.0.0.2" sample_world H1 H2 H3 H4).
Defined.

(** C3 as stated fails: on a system where every call succeeds, the flags
    handed to the create/attach request are [IFF_TUN], which is not
    [IFF_TUN | IFF_NO_PI]. *)
Lemma tunsetiff_flags_counterexample :
  exists r w',
    tun_alloc os_ok 1000 2000 "10.0.0.1" "10.0.0.2" sample_world
      = Some (r, w') /\
    map (fun i => ifr_flags (ifr_union i)) (ifreqs_of TUNSETIFF (w_log w'))
      = [IFF_TUN] /\
    IFF_TUN <> Z.lor IFF_TUN IFF_NO_PI.
Proof.
  eexists _, _. split; [vm_compute; reflexivity|].
  split; [reflexivity|]. vm_compute. discriminate.
Qed.

(** C3, amended.  When [open] succeeds, [tun_alloc] issues exactly one
    create/attach request, and the union of the [struct ifreq] it carries
    holds the flags [IFF_TUN] alone: the tunnel-mode bit is set and the
    no-packet-information bit is clear. *)
Theorem tun_alloc_tunsetiff_flags k p dev self_ip peer_ip w :
  0 <= answer k OpOpen ->
  exists r w' evs,
    tun_alloc k p dev self_ip peer_ip w = Some (r, w') /\
    w_log w' = w_log w ++ evs /\
    exists i,
      ifreqs_of TUNSETIFF evs = [i] /\
      ifr_union i = Ifru_flags IFF_TUN /\
      Z.land (ifr_flags (ifr_union i)) IFF_TUN = IFF_TUN /\
      Z.land (ifr_flags (ifr_union i)) IFF_NO_PI = 0.
Proof.
  unfold answer. intros Hopen.
  each_path k ltac:(first
    [ exfalso; lia
    | finished; eexists; split; [reflexivity|]; repeat split ]).
Qed.

Lemma tun_alloc_tunsetiff_flags_witness :
  0 <= answer os_ok OpOpen /\
  exists r w' evs,
    tun_alloc os_ok 1000 2000 "10.0.0.1" "10.0.0.2" sample_world
      = Some (r, w') /\
    w_log w' = w_log sample_world ++ evs /\
    exists i,
      ifreqs_of TUNSETIFF evs = [i] /\
      ifr_union i = Ifru_flags IFF_TUN /\
      Z.land (ifr_flags (ifr_union i)) IFF_TUN = IFF_TUN /\
      Z.land (ifr_flags (ifr_union i)) IFF_NO_PI = 0.
Proof.
  assert (H : 0 <= answer os_ok OpOpen) by (vm_compute; discriminate).
  split; [exact H|].
  exact (tun_alloc_tunsetiff_flags os_ok 1000 2000 "10.0.0.1" "10.0.0.2"
           sample_world H).
Defined.

(** C2.  When [open] succeeds and the requested name is not empty, the
    name array has been zeroed when [strscpy_pad] is called on it, so the
    call returns 0, stores nothing and leaves memory as it found it; the
    one create/attach request that follows carries a name array of 16
    zero bytes, whose first byte is therefore not the first byte of the
    requested name. *)
Theorem tun_alloc_name_discarded k p dev self_ip peer_ip w :
  0 <= answer k OpOpen ->
  load (w_mem w) dev <> 0 ->
  let m1 := memset (w_mem w) p 0 name_len in
  (exists l,
     Strscpy.strscpy_pad m1 p dev IFNAMSIZ = Some (0, l) /\
     Strscpy.stores l = [] /\
     Strscpy.l_mem l = m1) /\
  exists r w' evs,
    tun_alloc k p dev self_ip peer_ip w = Some (r, w') /\
    w_log w' = w_log w ++ evs /\
    exists i,
      ifreqs_of TUNSETIFF evs = [i] /\
      ifr_name i = repeat 0 name_len /\
      hd 0 (ifr_name i) <> load (w_mem w) dev.
Proof.
  intros Hopen Hname m1. unfold answer in Hopen. split.
  - destruct (StrscpyTotal.strscpy_pad_zero_head m1 p dev IFNAMSIZ IFNAMSIZ_int)
      as (l & Hl & Hm & Hst).
    { apply memset_head, name_len_pos. }
    exists l. repeat split; assumption.
  - each_path k ltac:(first
      [ exfalso; lia
      | finished; eexists; split; [reflexivity|]; split; [reflexivity|];
        change (0 <> load (w_mem w) dev); congruence ]).
Qed.

Lemma tun_alloc_name_discarded_witness :
  0 <= answer os_ok OpOpen /\
  load (w_mem sample_world) 2000 <> 0 /\
  (exists l,
     Strscpy.strscpy_pad (memset (w_mem sample_world) 1000 0 name_len)
       1000 2000 IFNAMSIZ = Some (0, l) /\
     Strscpy.stores l = [] /\
     Strscpy.l_mem l = memset (w_mem sample_world) 1000 0 name_len) /\
  exists r w' evs,
    tun_alloc os_ok 1000 2000 "10.0.0.1" "10.0.0.2" sample_world
      = Some (r, w') /\
    w_log w' = w_log sample_world ++ evs /\
    exists i,
      ifreqs_of TUNSETIFF evs = [i] /\
      ifr_name i = repeat 0 name_len /\
      hd 0 (ifr_name i) <> load (w_mem sample_world) 2000.
Proof.
  assert (H1 : 0 <= answer os_ok OpOpen) by (vm_compute; discriminate).
  assert (H2 : load (w_mem sample_world) 2000 <> 0) by (vm_compute; discriminate).
  split; [exact H1|]. split; [exact H2|].
  exact (tun_alloc_name_discarded os_ok 1000 2000 "10.0.0.1" "10.0.0.2"
           sample_world H1 H2).
Defined.

(** * Further properties *)

(** ** The copier *)

Lemma nonzero_run_nonzero m p n i :
  0 <= i < Z.of_nat (nonzero_run m p n) -> load m (p + i) <> 0.
Proof.
  revert p i. induction n as [|n IH]; intros p i Hi; simpl in Hi.
  - lia.
  - destruct (Z.eqb_spec (load m p) 0) as [Hz|Hnz]; [simpl in Hi; lia|].
    destruct (Z.eq_dec i 0) as [->|Hi0].
    + now rewrite Z.add_0_r.
    + replace (p + i) with (p + 1 + (i - 1)) by lia. apply IH. lia.
Qed.

Lemma nonzero_run_stop m p n :
  (nonzero_run m p n < n)%nat ->
  load m (p + Z.of_nat (nonzero_run m p n)) = 0.
Proof.
  revert p. induction n as [|n IH]; intros p Hlt; simpl in *.
  - lia.
  - destruct (Z.eqb_spec (load m p) 0) as [Hz|Hnz].
    + now rewrite Z.add_0_r.
    + replace (p + Z.of_nat (S (nonzero_run m (p + 1) n)))
        with (p + 1 + Z.of_nat (nonzero_run m (p + 1) n)) by lia.
      apply IH. lia.
Qed.

Lemma nonzero_run_full m p n :
  (forall i, 0 <= i < Z.of_nat n -> load m (p + i) <> 0) ->
  nonzero_run m p n = n.
Proof.
  revert p. induction n as [|n IH]; intros p Hall; simpl.
  - reflexivity.
  - destruct (Z.eqb_spec (load m p) 0) as [Hz|Hnz].
    + exfalso. apply (Hall 0); [lia | now rewrite Z.add_0_r].
    + f_equal. apply IH. intros i Hi.
      replace (p + 1 + i) with (p + (i + 1)) by lia. apply Hall. lia.
Qed.

(** X1.  For a size [n] that is not negative, the value [strscpy_pad]
    returns lies between 0 and [n]; every destination byte below that
    offset was non-zero before the call; and when the value is less than
    [n], the destination byte at that offset is zero after the call, as
    it was before. *)
Theorem strscpy_pad_return_value m d s n :
  0 <= n <= Int.max_signed ->
  exists r l,
    Strscpy.strscpy_pad m d s n = Some (r, l) /\
    0 <= r <= n /\
    (forall i, 0 <= i < r -> load m (d + i) <> 0) /\
    (r < n -> load m (d + r) = 0 /\ load (Strscpy.l_mem l) (d + r) = 0).
Proof.
  intros Hn.
  destruct (StrscpyFacts.strscpy_pad_run m d s n Hn)
    as (l & Hrun & _ & _ & _ & Hfr & _).
  pose proof (nonzero_run_le m d (Z.to_nat n)) as Hle.
  eexists _, l. split; [exact Hrun|]. split; [lia|]. split.
  - intros i Hi. now apply (nonzero_run_nonzero m d (Z.to_nat n)).
  - intros Hlt.
    assert (Hz : load m (d + Z.of_nat (nonzero_run m d (Z.to_nat n))) = 0)
      by (apply nonzero_run_stop; lia).
    split; [exact Hz|]. rewrite Hfr by lia. exact Hz.
Qed.

Lemma strscpy_pad_return_value_witness :
  0 <= 4 <= Int.max_signed /\
  exists r l,
    Strscpy.strscpy_pad dirty_mem 1000 2000 4 = Some (r, l) /\
    0 <= r <= 4 /\
    (forall i, 0 <= i < r -> load dirty_mem (1000 + i) <> 0) /\
    (r < 4 -> load dirty_mem (1000 + r) = 0 /\
              load (Strscpy.l_mem l) (1000 + r) = 0).
Proof.
  split; [vm_compute; split; discriminate|].
  apply (strscpy_pad_return_value dirty_mem 1000 2000 4).
  vm_compute; split; discriminate.
Defined.

(** X2.  For a size [n] that is not negative, [strscpy_pad] never
    overwrites a zero byte: every byte of memory that is zero before the
    call is zero after it. *)
Theorem strscpy_pad_keeps_zero_bytes m d s n :
  0 <= n <= Int.max_signed ->
  exists r l,
    Strscpy.strscpy_pad m d s n = Some (r, l) /\
    forall a, load m a = 0 -> load (Strscpy.l_mem l) a = 0.
Proof.
  intros Hn.
  destruct (StrscpyFacts.strscpy_pad_run m d s n Hn)
    as (l & Hrun & _ & _ & _ & Hfr & _).
  eexists _, l. split; [exact Hrun|].
  intros a Hz. rewrite Hfr; [exact Hz|].
  intros Hin.
  apply (nonzero_run_nonzero m d (Z.to_nat n) (a - d)); [lia|].
  now replace (d + (a - d)) with a by lia.
Qed.

Lemma strscpy_pad_keeps_zero_bytes_witness :
  0 <= 4 <= Int.max_signed /\
  exists r l,
    Strscpy.strscpy_pad dirty_mem 1000 2000 4 = Some (r, l) /\
    forall a, load dirty_mem a = 0 -> load (Strscpy.l_mem l) a = 0.
Proof.
  split; [vm_compute; split; discriminate|].
  apply (strscpy_pad_keeps_zero_bytes dirty_mem 1000 2000 4).
  vm_compute; split; discriminate.
Defined.

(** X3.  When the first [n] bytes of the destination are all non-zero and
    source and destination do not overlap, [strscpy_pad] returns [n] and
    has replaced all [n] bytes by the [n] bytes found at the source,
    wherever the source text ends: a zero byte in the source does not
    stop the copy. *)
Theorem strscpy_pad_overwrites_full_destination m d s n :
  0 <= n <= Int.max_signed ->
  s + n <= d \/ d + n <= s ->
  (forall i, 0 <= i < n -> load m (d + i) <> 0) ->
  exists l,
    Strscpy.strscpy_pad m d s n = Some (n, l) /\
    forall i, 0 <= i < n -> load (Strscpy.l_mem l) (d + i) = load m (s + i).
Proof.
  intros Hn Hdisj Hall.
  destruct (StrscpyFacts.strscpy_pad_run m d s n Hn)
    as (l & Hrun & _ & _ & _ & _ & Hcp).
  assert (Hr : nonzero_run m d (Z.to_nat n) = Z.to_nat n).
  { apply nonzero_run_full. intros i Hi. apply Hall. lia. }
  rewrite Hr in Hrun, Hcp. rewrite Z2Nat.id in Hrun, Hcp by lia.
  exists l. split; [exact Hrun|]. exact (Hcp Hdisj).
Qed.

Lemma strscpy_pad_overwrites_full_destination_witness :
  0 <= 2 <= Int.max_signed /\
  (2000 + 2 <= 1000 \/ 1000 + 2 <= 2000) /\
  (forall i, 0 <= i < 2 -> load dirty_mem (1000 + i) <> 0) /\
  exists l,
    Strscpy.strscpy_pad dirty_mem 1000 2000 2 = Some (2, l) /\
    forall i, 0 <= i < 2 ->
              load (Strscpy.l_mem l) (1000 + i) = load dirty_mem (2000 + i).
Proof.
  assert (H1 : 0 <= 2 <= Int.max_signed) by (vm_compute; split; discriminate).
  assert (H2 : 2000 + 2 <= 1000 \/ 1000 + 2 <= 2000) by (right; lia).
  assert (H3 : forall i, 0 <= i < 2 -> load dirty_mem (1000 + i) <> 0).
  { intros i Hi. assert (Hc : i = 0 \/ i = 1) by lia.
    destruct Hc as [-> | ->]; vm_compute; discriminate. }
  split; [exact H1|]. split; [exact H2|]. split; [exact H3|].
  exact (strscpy_pad_overwrites_full_destination dirty_mem 1000 2000 2 H1 H2 H3).
Defined.

(** ** The allocator *)

Lemma fit_length n l : List.length (fit n l) = n.
Proof.
  unfold fit. rewrite length_firstn, length_app, repeat_length. lia.
Qed.

Lemma c_str_length l : (List.length (c_str l) <= List.length l)%nat.
Proof.
  induction l as [|b l IH]; simpl; [lia|].
  destruct (b =? 0); simpl; lia.
Qed.


Lemma name_len_Z : Z.of_nat name_len = IFNAMSIZ.
Proof. reflexivity. Qed.

Lemma load_bytes_store_bytes_other m q l d n :
  d + Z.of_nat n <= q \/ q + Z.of_nat (List.length l) <= d ->
  load_bytes (store_bytes m q l) d n = load_bytes m d n.
Proof.
  intros Hdisj. unfold load_bytes. apply map_ext_in.
  intros a Ha. apply in_addrs in Ha. unfold load.
  apply store_bytes_outside. lia.
Qed.

(** Stores of a fitted name and of a string read from a name array stay
    inside 16 bytes. *)
Lemma store_name_outside m q l a :
  ~ (q <= a < q + IFNAMSIZ) -> store_bytes m q (fit name_len l) a = m a.
Proof.
  intros H. apply store_bytes_outside. rewrite fit_length, name_len_Z. exact H.
Qed.


Lemma memset_outside m q a :
  ~ (q <= a < q + IFNAMSIZ) -> memset m q 0 name_len a = m a.
Proof.
  intros H. unfold memset. apply store_bytes_outside.
  rewrite repeat_length, name_len_Z. exact H.
Qed.

(** X4.  The value [tun_alloc] returns: -1 when [open] fails, the
    failing call's own return value when a later operation is the first
    to fail, and the descriptor that [open] gave when none fails. *)
Theorem tun_alloc_return_value k p dev self_ip peer_ip w :
  exists r w' evs,
    tun_alloc k p dev self_ip peer_ip w = Some (r, w') /\
    w_log w' = w_log w ++ evs /\
    r = match first_failure k steps with
        | None => answer k OpOpen
        | Some OpOpen => -1
        | Some o => answer k o
        end.
Proof.
  unfold steps, first_failure, answer.
  each_path k ltac:(finished; reflexivity).
Qed.

(** X5.  The diagnostic lines of [tun_alloc]: nothing is printed when no
    operation fails or when [open] fails; when a later operation is the
    first to fail, exactly one line is printed, the one of that
    operation. *)
Theorem tun_alloc_diagnostics k p dev self_ip peer_ip w :
  exists r w' evs,
    tun_alloc k p dev self_ip peer_ip w = Some (r, w') /\
    w_log w' = w_log w ++ evs /\
    printfs_of evs = match first_failure k steps with
                     | None => []
                     | Some o => match diagnostic o with
                                 | None => []
                                 | Some f => [f]
                                 end
                     end.
Proof.
  unfold steps, first_failure, answer.
  each_path k ltac:(finished; reflexivity).
Qed.

(** X6.  Every [ioctl] of [tun_alloc] goes to the right descriptor: the
    create/attach request to the descriptor that [open] gave, every other
    request to the one that [socket] gave. *)
Theorem tun_alloc_ioctl_targets k p dev self_ip peer_ip w :
  exists r w' evs,
    tun_alloc k p dev self_ip peer_ip w = Some (r, w') /\
    w_log w' = w_log w ++ evs /\
    forall req fd, In (req, fd) (ioctl_targets evs) ->
      fd = if request_eqb req TUNSETIFF then answer k OpOpen
           else answer k OpSocket.
Proof.
  unfold answer.
  each_path k ltac:(finished; intros req fd Hin; simpl in Hin;
                    repeat (destruct Hin as [Hin|Hin];
                            [injection Hin as <- <-; reflexivity|]);
                    contradiction).
Qed.

(** X7.  [tun_alloc] closes at most two descriptors, and only ones it
    obtained itself: each closed descriptor is the non-negative result of
    its own [open] or [socket]. *)
Theorem tun_alloc_closes_own_descriptors k p dev self_ip peer_ip w :
  exists r w' evs,
    tun_alloc k p dev self_ip peer_ip w = Some (r, w') /\
    w_log w' = w_log w ++ evs /\
    (List.length (closes_of evs) <= 2)%nat /\
    forall c, In c (closes_of evs) ->
      0 <= c /\ (c = answer k OpOpen \/ c = answer k OpSocket).
Proof.
  unfold answer.
  each_path k ltac:(finished; split; [simpl; lia|];
                    intros c Hin; simpl in Hin;
                    repeat (destruct Hin as [Hin|Hin];
                            [subst c; split; [assumption | tauto]|]);
                    contradiction).
Qed.

(** X8.  When [socket] gives another descriptor than [open], [tun_alloc]
    closes no descriptor twice. *)
Theorem tun_alloc_no_double_close k p dev self_ip peer_ip w :
  answer k OpSocket <> answer k OpOpen ->
  exists r w' evs,
    tun_alloc k p dev self_ip peer_ip w = Some (r, w') /\
    w_log w' = w_log w ++ evs /\
    NoDup (closes_of evs).
Proof.
  unfold answer. intros Hne.
  each_path k ltac:(finished;
                    repeat (constructor; simpl; try tauto);
                    intros [Heq|[]]; congruence).
Qed.

Lemma tun_alloc_no_double_close_witness :
  answer (os_failing SIOCSIFFLAGS) OpSocket
    <> answer (os_failing SIOCSIFFLAGS) OpOpen /\
  exists r w' evs,
    tun_alloc (os_failing SIOCSIFFLAGS) 1000 2000 "10.0.0.1" "10.0.0.2"
      sample_world = Some (r, w') /\
    w_log w' = w_log sample_world ++ evs /\
    NoDup (closes_of evs).
Proof.
  assert (H : answer (os_failing SIOCSIFFLAGS) OpSocket
              <> answer (os_failing SIOCSIFFLAGS) OpOpen)
    by (vm_compute; discriminate).
  split; [exact H|].
  exact (tun_alloc_no_double_close (os_failing SIOCSIFFLAGS) 1000 2000
           "10.0.0.1" "10.0.0.2" sample_world H).
Defined.


(** X10.  When [open] fails or the create/attach request fails, the
    caller's memory is untouched: every byte outside the local name array
    is as it was before the call, the name buffer [dev] included. *)
Theorem tun_alloc_early_failure_leaves_memory k p dev self_ip peer_ip w :
  answer k OpOpen < 0 \/ answer k (OpIoctl TUNSETIFF) < 0 ->
  exists r w' evs,
    tun_alloc k p dev self_ip peer_ip w = Some (r, w') /\
    w_log w' = w_log w ++ evs /\
    forall a, ~ (p <= a < p + IFNAMSIZ) ->
              load (w_mem w') a = load (w_mem w) a.
Proof.
  unfold answer. intros Hfail.
  each_path k ltac:(first
    [ exfalso; lia
    | finished; intros a Hp; unfold load;
      rewrite ?store_name_outside by assumption;
      rewrite ?memset_outside by assumption;
      reflexivity ]).
Qed.

Lemma tun_alloc_early_failure_leaves_memory_witness :
  (answer (os_failing TUNSETIFF) OpOpen < 0 \/
   answer (os_failing TUNSETIFF) (OpIoctl TUNSETIFF) < 0) /\
  exists r w' evs,
    tun_alloc (os_failing TUNSETIFF) 1000 2000 "10.0.0.1" "10.0.0.2"
      sample_world = Some (r, w') /\
    w_log w' = w_log sample_world ++ evs /\
    forall a, ~ (1000 <= a < 1000 + IFNAMSIZ) ->
              load (w_mem w') a = load (w_mem sample_world) a.
Proof.
  assert (H : answer (os_failing TUNSETIFF) OpOpen < 0 \/
              answer (os_failing TUNSETIFF) (OpIoctl TUNSETIFF) < 0)
    by (right; reflexivity).
  split; [exact H|].
  exact (tun_alloc_early_failure_leaves_memory (os_failing TUNSETIFF) 1000 2000
           "10.0.0.1" "10.0.0.2" sample_world H).
Defined.

Lemma load_name_after_store m q l :
  load_bytes (store_bytes m q (fit name_len l)) q name_len = fit name_len l.
Proof.
  pose proof (load_bytes_store_bytes m q (fit name_len l)) as H.
  now rewrite fit_length in H.
Qed.

Lemma load_bytes_store_name_other m q l d n :
  d + Z.of_nat n <= q \/ q + IFNAMSIZ <= d ->
  load_bytes (store_bytes m q (fit name_len l)) d n = load_bytes m d n.
Proof.
  intros H. apply load_bytes_store_bytes_other.
  rewrite fit_length, name_len_Z. exact H.
Qed.

Lemma land_lor_keep x c b : Z.land c b = b -> Z.land (Z.lor x c) b = b.
Proof.
  intros H. apply Z.bits_inj'. intros i Hi.
  assert (Hb : Z.testbit (Z.land c b) i = Z.testbit b i) by now rewrite H.
  rewrite Z.land_spec in Hb. rewrite Z.land_spec, Z.lor_spec.
  destruct (Z.testbit x i), (Z.testbit c i), (Z.testbit b i);
    simpl in *; congruence.
Qed.

(** X11.  When the device is opened, the interface created, and the
    caller's name buffer [dev] does not overlap the local name array, the
    buffer holds at the return the name the system assigned, through its
    first zero byte. *)
Theorem tun_alloc_captures_name k p dev self_ip peer_ip w :
  0 <= answer k OpOpen ->
  0 <= answer k (OpIoctl TUNSETIFF) ->
  dev + IFNAMSIZ <= p \/ p + IFNAMSIZ <= dev ->
  exists r w' evs,
    tun_alloc k p dev self_ip peer_ip w = Some (r, w') /\
    w_log w' = w_log w ++ evs /\
    load_bytes (w_mem w') dev (List.length (c_str (assigned_name k)))
      = c_str (assigned_name k).
Proof.
  unfold answer, assigned_name, tunsetiff_request. intros Hopen Hif Hdisj.
  pose proof (c_str_length
    (fit name_len (ifr_name (os_ifreq k TUNSETIFF
       {| ifr_name := repeat 0 name_len; ifr_union := Ifru_flags IFF_TUN |}))))
    as Hlen.
  rewrite fit_length in Hlen. pose proof name_len_Z as HZ.
  each_path k ltac:(first
    [ exfalso; lia
    | finished;
      rewrite ?load_bytes_store_name_other by lia;
      rewrite load_name_after_store;
      apply load_bytes_store_bytes ]).
Qed.

Lemma tun_alloc_captures_name_witness :
  0 <= answer os_ok OpOpen /\
  0 <= answer os_ok (OpIoctl TUNSETIFF) /\
  (2000 + IFNAMSIZ <= 1000 \/ 1000 + IFNAMSIZ <= 2000) /\
  exists r w' evs,
    tun_alloc os_ok 1000 2000 "10.0.0.1" "10.0.0.2" sample_world
      = Some (r, w') /\
    w_log w' = w_log sample_world ++ evs /\
    load_bytes (w_mem w') 2000 (List.length (c_str (assigned_name os_ok)))
      = c_str (assigned_name os_ok).
Proof.
  assert (H1 : 0 <= answer os_ok OpOpen) by (vm_compute; discriminate).
  assert (H2 : 0 <= answer os_ok (OpIoctl TUNSETIFF)) by (vm_compute; discriminate).
  assert (H3 : 2000 + IFNAMSIZ <= 1000 \/ 1000 + IFNAMSIZ <= 2000)
    by (right; vm_compute; discriminate).
  split; [exact H1|]. split; [exact H2|]. split; [exact H3|].
  exact (tun_alloc_captures_name os_ok 1000 2000 "10.0.0.1" "10.0.0.2"
           sample_world H1 H2 H3).
Defined.

(** X12.  When the device, the interface and the socket were obtained and
    the caller's name buffer does not overlap the local name array, the
    one set-address request names the interface the system assigned and
    carries an Internet address with port 0 and the parse of [self_ip]. *)
Theorem tun_alloc_address_request k p dev self_ip peer_ip w :
  0 <= answer k OpOpen ->
  0 <= answer k (OpIoctl TUNSETIFF) ->
  0 <= answer k OpSocket ->
  dev + IFNAMSIZ <= p \/ p + IFNAMSIZ <= dev ->
  exists r w' evs,
    tun_alloc k p dev self_ip peer_ip w = Some (r, w') /\
    w_log w' = w_log w ++ evs /\
    ifreqs_of SIOCSIFADDR evs =
      [{| ifr_name := assigned_name k;
          ifr_union := Ifru_addr {| sin_family := AF_INET; sin_port := 0;
                                    sin_addr := os_inet_addr k self_ip |} |}].
Proof.
  unfold answer, assigned_name, tunsetiff_request. intros Hopen Hif Hsock Hdisj.
  pose proof (c_str_length
    (fit name_len (ifr_name (os_ifreq k TUNSETIFF
       {| ifr_name := repeat 0 name_len; ifr_union := Ifru_flags IFF_TUN |}))))
    as Hlen.
  rewrite fit_length in Hlen. pose proof name_len_Z as HZ.
  assert (Hname : forall m,
    load_bytes
      (store_bytes
         (store_bytes m p
            (fit name_len (ifr_name (os_ifreq k TUNSETIFF
               {| ifr_name := repeat 0 name_len;
                  ifr_union := Ifru_flags IFF_TUN |}))))
         dev
         (c_str (load_bytes
            (store_bytes m p
               (fit name_len (ifr_name (os_ifreq k TUNSETIFF
                  {| ifr_name := repeat 0 name_len;
                     ifr_union := Ifru_flags IFF_TUN |}))))
            p name_len)))
      p name_len
    = fit name_len (ifr_name (os_ifreq k TUNSETIFF
        {| ifr_name := repeat 0 name_len; ifr_union := Ifru_flags IFF_TUN |}))).
  { intros m. rewrite load_name_after_store.
    rewrite load_bytes_store_bytes_other by lia.
    apply load_name_after_store. }
  each_path k ltac:(first
    [ exfalso; lia
    | rewrite Hname; finished; reflexivity ]).
Qed.

Lemma tun_alloc_address_request_witness :
  0 <= answer os_ok OpOpen /\
  0 <= answer os_ok (OpIoctl TUNSETIFF) /\
  0 <= answer os_ok OpSocket /\
  (2000 + IFNAMSIZ <= 1000 \/ 1000 + IFNAMSIZ <= 2000) /\
  exists r w' evs,
    tun_alloc os_ok 1000 2000 "10.0.0.1" "10.0.0.2" sample_world
      = Some (r, w') /\
    w_log w' = w_log sample_world ++ evs /\
    ifreqs_of SIOCSIFADDR evs =
      [{| ifr_name := assigned_name os_ok;
          ifr_union := Ifru_addr {| sin_family := AF_INET; sin_port := 0;
                                    sin_addr := os_inet_addr os_ok "10.0.0.1" |} |}].
Proof.
  assert (H1 : 0 <= answer os_ok OpOpen) by (vm_compute; discriminate).
  assert (H2 : 0 <= answer os_ok (OpIoctl TUNSETIFF)) by (vm_compute; discriminate).
  assert (H3 : 0 <= answer os_ok OpSocket) by (vm_compute; discriminate).
  assert (H4 : 2000 + IFNAMSIZ <= 1000 \/ 1000 + IFNAMSIZ <= 2000)
    by (right; vm_compute; discriminate).
  split; [exact H1|]. split; [exact H2|]. split; [exact H3|]. split; [exact H4|].
  exact (tun_alloc_address_request os_ok 1000 2000 "10.0.0.1" "10.0.0.2"
           sample_world H1 H2 H3 H4).
Defined.

(** X13.  When the first six operations succeed, the flags [tun_alloc]
    writes back are the flags the system reported with [IFF_UP] and
    [IFF_RUNNING] added: both bits are set and no reported bit is
    cleared. *)
Theorem tun_alloc_activates k p dev self_ip peer_ip w :
  (forall o, In o (firstn 6 steps) -> 0 <= answer k o) ->
  exists r w' evs,
    tun_alloc k p dev self_ip peer_ip w = Some (r, w') /\
    w_log w' = w_log w ++ evs /\
    exists g s,
      ifreqs_of SIOCGIFFLAGS evs = [g] /\
      ifreqs_of SIOCSIFFLAGS evs = [s] /\
      let reported := ifr_flags (ifr_union (os_ifreq k SIOCGIFFLAGS g)) in
      ifr_union s = Ifru_flags (Z.lor reported (Z.lor IFF_UP IFF_RUNNING)) /\
      Z.land (ifr_flags (ifr_union s)) IFF_UP = IFF_UP /\
      Z.land (ifr_flags (ifr_union s)) IFF_RUNNING = IFF_RUNNING /\
      (forall i, Z.testbit reported i = true ->
                 Z.testbit (ifr_flags (ifr_union s)) i = true).
Proof.
  intros Hok.
  assert (H1 := Hok OpOpen ltac:(simpl; tauto)).
  assert (H2 := Hok (OpIoctl TUNSETIFF) ltac:(simpl; tauto)).
  assert (H3 := Hok OpSocket ltac:(simpl; tauto)).
  assert (H4 := Hok (OpIoctl SIOCSIFADDR) ltac:(simpl; tauto)).
  assert (H5 := Hok (OpIoctl SIOCSIFDSTADDR) ltac:(simpl; tauto)).
  assert (H6 := Hok (OpIoctl SIOCGIFFLAGS) ltac:(simpl; tauto)).
  clear Hok. unfold answer in *.
  each_path k ltac:(first
    [ exfalso; lia
    | finished; eexists _, _;
      split; [reflexivity|]; split; [reflexivity|];
      cbn [ifr_union ifr_flags];
      split; [reflexivity|];
      split; [apply land_lor_keep; reflexivity|];
      split; [apply land_lor_keep; reflexivity|];
      intros i Hi; rewrite Z.lor_spec, Hi; reflexivity ]).
Qed.

Lemma tun_alloc_activates_witness :
  (forall o, In o (firstn 6 steps) -> 0 <= answer os_ok o) /\
  exists r w' evs,
    tun_alloc os_ok 1000 2000 "10.0.0.1" "10.0.0.2" sample_world
      = Some (r, w') /\
    w_log w' = w_log sample_world ++ evs /\
    exists g s,
      ifreqs_of SIOCGIFFLAGS evs = [g] /\
      ifreqs_of SIOCSIFFLAGS evs = [s] /\
      let reported := ifr_flags (ifr_union (os_ifreq os_ok SIOCGIFFLAGS g)) in
      ifr_union s = Ifru_flags (Z.lor reported (Z.lor IFF_UP IFF_RUNNING)) /\
      Z.land (ifr_flags (ifr_union s)) IFF_UP = IFF_UP /\
      Z.land (ifr_flags (ifr_union s)) IFF_RUNNING = IFF_RUNNING /\
      (forall i, Z.testbit reported i = true ->
                 Z.testbit (ifr_flags (ifr_union s)) i = true).
Proof.
  assert (H : forall o, In o (firstn 6 steps) -> 0 <= answer os_ok o).
  { intros o Hin. destruct o as [|req|]; [| destruct req |]; vm_compute; discriminate. }
  split; [exact H|].
  exact (tun_alloc_activates os_ok 1000 2000 "10.0.0.1" "10.0.0.2" sample_world H).
Defined.

(** X14.  When the first seven operations succeed, [tun_alloc] asks for
    one route: to the very address it set as the interface's destination,
    the parse of [peer_ip]; with the parse of 255.255.255.255 as mask;
    flagged [RTF_UP | RTF_STATIC]; of metric 0; through the device named
    by the caller's buffer [dev]. *)
Theorem tun_alloc_route k p dev self_ip peer_ip w :
  (forall o, In o (firstn 7 steps) -> 0 <= answer k o) ->
  exists r w' evs,
    tun_alloc k p dev self_ip peer_ip w = Some (r, w') /\
    w_log w' = w_log w ++ evs /\
    exists i rt,
      ifreqs_of SIOCSIFDSTADDR evs = [i] /\
      rtentries_of evs = [rt] /\
      ifr_union i = Ifru_dstaddr (rt_dst rt) /\
      rt_dst rt = {| sin_family := AF_INET; sin_port := 0;
                     sin_addr := os_inet_addr k peer_ip |} /\
      rt_genmask rt = {| sin_family := AF_INET; sin_port := 0;
                         sin_addr := os_inet_addr k "255.255.255.255" |} /\
      rt_flags rt = Z.lor RTF_UP RTF_STATIC /\
      rt_metric rt = 0 /\
      rt_dev rt = dev.
Proof.
  intros Hok.
  assert (H1 := Hok OpOpen ltac:(simpl; tauto)).
  assert (H2 := Hok (OpIoctl TUNSETIFF) ltac:(simpl; tauto)).
  assert (H3 := Hok OpSocket ltac:(simpl; tauto)).
  assert (H4 := Hok (OpIoctl SIOCSIFADDR) ltac:(simpl; tauto)).
  assert (H5 := Hok (OpIoctl SIOCSIFDSTADDR) ltac:(simpl; tauto)).
  assert (H6 := Hok (OpIoctl SIOCGIFFLAGS) ltac:(simpl; tauto)).
  assert (H7 := Hok (OpIoctl SIOCSIFFLAGS) ltac:(simpl; tauto)).
  clear Hok. unfold answer in *.
  each_path k ltac:(first
    [ exfalso; lia
    | finished; cbn [rtentries_of app]; eexists _, _;
      split; [reflexivity|]; split; [reflexivity|];
      repeat split ]).
Qed.

Lemma tun_alloc_route_witness :
  (forall o, In o (firstn 7 steps) -> 0 <= answer os_ok o) /\
  exists r w' evs,
    tun_alloc os_ok 1000 2000 "10.0.0.1" "10.0.0.2" sample_world
      = Some (r, w') /\
    w_log w' = w_log sample_world ++ evs /\
    exists i rt,
      ifreqs_of SIOCSIFDSTADDR evs = [i] /\
      rtentries_of evs = [rt] /\
      ifr_union i = Ifru_dstaddr (rt_dst rt) /\
      rt_dst rt = {| sin_family := AF_INET; sin_port := 0;
                     sin_addr := os_inet_addr os_ok "10.0.0.2" |} /\
      rt_genmask rt = {| sin_family := AF_INET; sin_port := 0;
                         sin_addr := os_inet_addr os_ok "255.255.255.255" |} /\
      rt_flags rt = Z.lor RTF_UP RTF_STATIC /\
      rt_metric rt = 0 /\
      rt_dev rt = 2000.
Proof.
  assert (H : forall o, In o (firstn 7 steps) -> 0 <= answer os_ok o).
  { intros o Hin. destruct o as [|req|]; [| destruct req |]; vm_compute; discriminate. }
  split; [exact H|].
  exact (tun_alloc_route os_ok 1000 2000 "10.0.0.1" "10.0.0.2" sample_world H).
Defined.
